(** * halting.py: the predictor stub and its diagonal counter-example

    The module declares two functions.  [will_freeze] is a stub whose body
    is [pass]; [opposite] asks [will_freeze] about its own argument applied
    to itself and then does the contrary of the answer.  Both are embedded
    as interaction trees: a call of the module-level name [will_freeze] and
    a [print] are visible events, [while True] is [ITree.forever]. *)

From Stdlib Require Import List String Bool ZArith Arith Lia.
From ITree Require Import ITree ITreeFacts Events.Exception.
Import ListNotations.
Import ITreeNotations.
Local Open Scope itree_scope.
Local Open Scope string_scope.

(** ** Python values *)

(** The objects that can flow through the two functions.  A function
    object is identified by the name of its [def]; neither function ever
    looks inside the objects it is handed. *)
Inductive value : Type :=
| VNone
| VBool (b : bool)
| VInt (z : Z)
| VStr (s : string)
| VFun (name : string).

(** Truth value testing, as performed by [if]. *)
Definition truthy (v : value) : bool :=
  match v with
  | VNone => false
  | VBool b => b
  | VInt z => negb (Z.eqb z 0)
  | VStr s => negb (String.eqb s "")
  | VFun _ => true
  end.

Definition is_bool (v : value) : bool :=
  match v with
  | VBool _ => true
  | _ => false
  end.

(** ** Effects *)

(** [WillFreeze f x] is the call [will_freeze(f, x)]: the name is looked up
    in the module globals when the call is made, so the callee is whatever
    is bound there. *)
Variant predictE : Type -> Type :=
| WillFreeze (f x : value) : predictE value.

(** [Print s] is [print(s)]: one line on standard output. *)
Variant printE : Type -> Type :=
| Print (s : string) : printE unit.

(** A raised exception, named by its class. *)
Definition raiseE : Type -> Type := exceptE string.

Definition pyE : Type -> Type := predictE +' printE +' raiseE.

(** ** The two functions *)

(** [def will_freeze(f, x) -> bool: pass].  The body does nothing, so the
    call falls off the end and yields [None]. *)
Definition will_freeze (f x : value) : itree pyE value :=
  Ret VNone.

(** [def opposite(f)]. *)
Definition opposite (f : value) : itree pyE value :=
  r <- trigger (WillFreeze f f) ;;
  if truthy r
  then Ret (VBool false)
  else ITree.forever (trigger (Print "Infinite loop")).

(** ** Running a call *)

(** What an observer of one run sees, in order. *)
Inductive obs : Type :=
| OCall (f x : value)
| OPrint (s : string).

Inductive status : Type :=
| Returned (v : value)
| Raised (e : string)
| Running.

Definition outcome : Type := (list obs * status)%type.

Definition seen (o : obs) (r : outcome) : outcome := (o :: fst r, snd r).

(** [after tr r]: the run [r] happened after [tr] had been observed. *)
Definition after (tr : list obs) (r : outcome) : outcome := ((tr ++ fst r)%list, snd r).

(** A binding of the global name [will_freeze]. *)
Definition predictor : Type := value -> value -> itree pyE value.

(** [exec W n t] runs [t] for at most [n] steps with [will_freeze] bound
    to [W].  A call of the predictor is logged and continues with the
    callee's body; a print is logged; a raise stops the run. *)
Fixpoint exec (W : predictor) (fuel : nat) (t : itree pyE value) : outcome :=
  match fuel with
  | O => ([], Running)
  | S n =>
    match observe t with
    | RetF v => ([], Returned v)
    | TauF u => exec W n u
    | VisF e k =>
      match e with
      | inl1 c =>
        match c in predictE X return (X -> itree pyE value) -> outcome with
        | WillFreeze f x => fun k => seen (OCall f x) (exec W n (ITree.bind (W f x) k))
        end k
      | inr1 (inl1 p) =>
        match p in printE X return (X -> itree pyE value) -> outcome with
        | Print s => fun k => seen (OPrint s) (exec W n (k tt))
        end k
      | inr1 (inr1 x) =>
        match x in exceptE _ X return (X -> itree pyE value) -> outcome with
        | Throw e => fun _ => ([], Raised e)
        end k
      end
    end
  end.

Definition trace (r : outcome) : list obs := fst r.
Definition result (r : outcome) : status := snd r.

(** The call returns: some finite run ends in a value. *)
Definition halts (W : predictor) (t : itree pyE value) : Prop :=
  exists n v, result (exec W n t) = Returned v.

(** The call never finishes: every finite run is still running. *)
Definition freezes (W : predictor) (t : itree pyE value) : Prop :=
  forall n, result (exec W n t) = Running.

(** A candidate implementation that is a total function to a boolean. *)
Definition decider (P : value -> value -> bool) : predictor :=
  fun f x => Ret (VBool (P f x)).

(** The function object bound to the name [opposite]. *)
Definition opposite_fn : value := VFun "opposite".

Definition always (b : bool) : predictor := decider (fun _ _ => b).

(** What [opposite] does once the predictor has answered [r]. *)
Definition verdict (r : value) : itree pyE value :=
  if truthy r
  then Ret (VBool false)
  else ITree.forever (trigger (Print "Infinite loop")).

Definition count_calls (l : list obs) : nat :=
  List.length (filter (fun o => match o with OCall _ _ => true | OPrint _ => false end) l).

Definition count_prints (l : list obs) : nat :=
  List.length (filter (fun o => match o with OPrint _ => true | OCall _ _ => false end) l).

(** The run performs no output. *)
Definition io_free (W : predictor) (t : itree pyE value) : Prop :=
  forall n, count_prints (trace (exec W n t)) = 0.

(** The body run by the call [f(x)], for the function of one argument
    that the module defines. *)
Definition apply1 (f x : value) : option (itree pyE value) :=
  match f with
  | VFun name => if String.eqb name "opposite" then Some (opposite x) else None
  | _ => None
  end.

(** The contract in the docstring of [will_freeze]: the answer is [True]
    exactly when the call [f(x)] gets stuck. *)
Definition honest (P : value -> value -> bool) : Prop :=
  forall f x t, apply1 f x = Some t -> (P f x = true <-> freezes (decider P) t).

(** A predictor that answers [r] whatever it is asked. *)
Definition answer (r : value) : predictor := fun _ _ => Ret r.

(** ** Sample runs *)

(** The module as it is: the stub answers [None], so the loop is entered. *)
Example run_shipped :
  exec will_freeze 6 (opposite (VStr "x"))
  = ([OCall (VStr "x") (VStr "x");
      OPrint "Infinite loop"; OPrint "Infinite loop"; OPrint "Infinite loop"],
     Running).
Proof. reflexivity. Qed.

(** A predictor that answers [True]. *)
Example run_always_true :
  exec (always true) 2 (opposite opposite_fn)
  = ([OCall opposite_fn opposite_fn], Returned (VBool false)).
Proof. reflexivity. Qed.

(** A predictor that prints before it answers: its output comes between
    the call and the return of [opposite]. *)
Example run_chatty_predictor :
  exec (fun _ _ => trigger (Print "thinking") ;; Ret (VInt 1)) 3 (opposite VNone)
  = ([OCall VNone VNone; OPrint "thinking"], Returned (VBool false)).
Proof. reflexivity. Qed.

(** A predictor that raises: the error goes through [opposite]. *)
Example run_raising_predictor :
  exec (fun _ _ => throw "NotImplementedError") 5 (opposite VNone)
  = ([OCall VNone VNone], Raised "NotImplementedError").
Proof. reflexivity. Qed.

(** A predictor that asks itself again never answers. *)
Example run_recursive_predictor :
  exec (fun f x => trigger (WillFreeze f x)) 4 (opposite VNone)
  = ([OCall VNone VNone; OCall VNone VNone; OCall VNone VNone; OCall VNone VNone],
     Running).
Proof. reflexivity. Qed.

(** ** Unfolding the runner *)

Section Runner.

Variable W : predictor.

Lemma exec_S (n : nat) (t : itree pyE value) :
  exec W (S n) t =
  match observe t with
  | RetF v => ([], Returned v)
  | TauF u => exec W n u
  | VisF e k =>
    match e with
    | inl1 c =>
      match c in predictE X return (X -> itree pyE value) -> outcome with
      | WillFreeze f x => fun k => seen (OCall f x) (exec W n (ITree.bind (W f x) k))
      end k
    | inr1 (inl1 p) =>
      match p in printE X return (X -> itree pyE value) -> outcome with
      | Print s => fun k => seen (OPrint s) (exec W n (k tt))
      end k
    | inr1 (inr1 x) =>
      match x in exceptE _ X return (X -> itree pyE value) -> outcome with
      | Throw e => fun _ => ([], Raised e)
      end k
    end
  end.
Proof. reflexivity. Qed.

Lemma exec_observe (n : nat) (t u : itree pyE value) :
  observe t = observe u -> exec W n t = exec W n u.
Proof.
  intros H. destruct n as [|n]; simpl; [reflexivity|].
  rewrite H. reflexivity.
Qed.

Lemma exec_bind_ret (n : nat) (t : itree pyE value) (k : value -> itree pyE value) (v : value) :
  observe t = RetF v -> exec W n (ITree.bind t k) = exec W n (k v).
Proof.
  intros H. apply exec_observe.
  rewrite observe_bind, H. reflexivity.
Qed.

Lemma exec_forever_print (s : string) (n : nat) :
  exec W (S (S n)) (ITree.forever (trigger (Print s)))
  = seen (OPrint s) (exec W n (ITree.forever (trigger (Print s)))).
Proof. reflexivity. Qed.

(** Runs do not distinguish strongly bisimilar trees. *)
Lemma exec_eq_itree (n : nat) :
  forall t u : itree pyE value, t ≅ u -> exec W n t = exec W n u.
Proof.
  induction n as [|n IH]; intros t u H; [reflexivity|].
  apply eqit_inv in H. simpl. unfold observe.
  destruct (_observe t) as [v|t'|X e k], (_observe u) as [v'|u'|X' e' k'];
    cbn in H; try contradiction; try discriminate.
  - subst v'. reflexivity.
  - apply IH. exact H.
  - destruct H as [p [He Hk]]. destruct p. cbn in He, Hk. subst e'.
    destruct e as [c | [p | x]].
    + destruct c. f_equal. apply IH.
      apply eqit_bind; [reflexivity | exact Hk].
    + destruct p. f_equal. apply IH. apply Hk.
    + destruct x. reflexivity.
Qed.

Lemma exec_opposite_step (f : value) (n : nat) :
  exec W (S n) (opposite f)
  = seen (OCall f f) (exec W n (ITree.bind (W f f) verdict)).
Proof.
  simpl. f_equal. apply exec_eq_itree.
  apply eqit_bind; [reflexivity | intros r].
  rewrite bind_ret_l. reflexivity.
Qed.

Lemma after_nil (r : outcome) : after [] r = r.
Proof. destruct r; reflexivity. Qed.

Lemma seen_inv (o : obs) (r : outcome) (tr : list obs) (st : status) :
  seen o r = (tr, st) -> exists tr', tr = o :: tr' /\ r = (tr', st).
Proof.
  destruct r as [tr0 st0]. unfold seen. simpl. intros H.
  injection H as <- <-. exists tr0. split; reflexivity.
Qed.

(** A run that is over stays as it is when given more steps. *)
Lemma exec_done_S (n : nat) :
  forall t, result (exec W n t) <> Running -> exec W (S n) t = exec W n t.
Proof.
  induction n as [|n IH]; intros t H; [exfalso; apply H; reflexivity|].
  revert H. rewrite (exec_S (S n)), (exec_S n).
  destruct (observe t) as [v|u|X e k]; [reflexivity| |].
  - intros H. exact (IH u H).
  - destruct e as [c | [p | x]].
    + destruct c. intros H. f_equal. apply IH. exact H.
    + destruct p. intros H. f_equal. apply IH. exact H.
    + destruct x. reflexivity.
Qed.

Lemma exec_done_le (n m : nat) (t : itree pyE value) :
  result (exec W n t) <> Running -> n <= m -> exec W m t = exec W n t.
Proof.
  intros H Hle. induction Hle as [|m Hle IH]; [reflexivity|].
  rewrite <- IH. apply exec_done_S. rewrite IH. exact H.
Qed.

(** A run still going at [m] steps was still going at any fewer. *)
Lemma exec_running_le (n m : nat) (t : itree pyE value) :
  result (exec W m t) = Running -> n <= m -> result (exec W n t) = Running.
Proof.
  intros H Hle.
  destruct (result (exec W n t)) eqn:E; [exfalso|exfalso|reflexivity].
  - rewrite (@exec_done_le n m t) in H by (rewrite ?E; congruence || assumption).
    congruence.
  - rewrite (@exec_done_le n m t) in H by (rewrite ?E; congruence || assumption).
    congruence.
Qed.

(** *** Runs of a sequence [x <- t ;; k x] *)

Lemma exec_bind_running (n : nat) :
  forall (t : itree pyE value) (k : value -> itree pyE value) tr,
    exec W n t = (tr, Running) -> exec W n (ITree.bind t k) = (tr, Running).
Proof.
  induction n as [|n IH]; intros t k tr H; [exact H|].
  revert H. rewrite !exec_S, observe_bind.
  destruct (observe t) as [v|u|X e h]; cbn [observe _observe].
  - discriminate.
  - apply IH.
  - destruct e as [c | [p | x]].
    + destruct c. intros H. apply seen_inv in H. destruct H as [tr' [-> H]].
      apply (IH _ k) in H.
      rewrite (@exec_eq_itree n _ (ITree.bind (ITree.bind (W f x) h) k))
        by (rewrite bind_bind; reflexivity).
      rewrite H. reflexivity.
    + destruct p. intros H. apply seen_inv in H. destruct H as [tr' [-> H]].
      apply (IH _ k) in H. rewrite H. reflexivity.
    + destruct x. discriminate.
Qed.

Lemma exec_bind_raised (n : nat) :
  forall (t : itree pyE value) (k : value -> itree pyE value) tr e,
    exec W n t = (tr, Raised e) -> exec W n (ITree.bind t k) = (tr, Raised e).
Proof.
  induction n as [|n IH]; intros t k tr e0 H; [discriminate|].
  revert H. rewrite !exec_S, observe_bind.
  destruct (observe t) as [v|u|X e h]; cbn [observe _observe].
  - discriminate.
  - apply IH.
  - destruct e as [c | [p | x]].
    + destruct c. intros H. apply seen_inv in H. destruct H as [tr' [-> H]].
      apply (IH _ k) in H.
      rewrite (@exec_eq_itree n _ (ITree.bind (ITree.bind (W f x) h) k))
        by (rewrite bind_bind; reflexivity).
      rewrite H. reflexivity.
    + destruct p. intros H. apply seen_inv in H. destruct H as [tr' [-> H]].
      apply (IH _ k) in H. rewrite H. reflexivity.
    + destruct x. intros H. exact H.
Qed.

(** When [t] returns [r] the sequence goes on with [k r]; the
    returning step itself is not one of the sequence's steps. *)
Lemma exec_bind_returned (n : nat) :
  forall (t : itree pyE value) tr r,
    exec W n t = (tr, Returned r) ->
    exists j, j < n /\
      forall (k : value -> itree pyE value) i,
        exec W (j + i) (ITree.bind t k) = after tr (exec W i (k r)).
Proof.
  induction n as [|n IH]; intros t tr r H; [discriminate|].
  revert H. rewrite exec_S.
  destruct (observe t) as [v|u|X e h] eqn:Ot.
  - intros H. injection H as <- <-. exists 0. split; [lia|].
    intros k i. rewrite after_nil.
    apply exec_observe. rewrite observe_bind, Ot. reflexivity.
  - intros H. destruct (IH _ _ _ H) as [j [Hj Hk]].
    exists (S j). split; [lia|]. intros k i.
    change (S j + i) with (S (j + i)).
    rewrite exec_S, observe_bind, Ot. cbn [observe _observe]. apply Hk.
  - destruct e as [c | [p | x]].
    + destruct c. intros H. apply seen_inv in H. destruct H as [tr' [-> H]].
      destruct (IH _ _ _ H) as [j [Hj Hk]].
      exists (S j). split; [lia|]. intros k i.
      change (S j + i) with (S (j + i)).
      rewrite exec_S, observe_bind, Ot. cbn [observe _observe].
      rewrite (@exec_eq_itree (j + i) _ (ITree.bind (ITree.bind (W f x) h) k))
        by (rewrite bind_bind; reflexivity).
      rewrite Hk. reflexivity.
    + destruct p. intros H. apply seen_inv in H. destruct H as [tr' [-> H]].
      destruct (IH _ _ _ H) as [j [Hj Hk]].
      exists (S j). split; [lia|]. intros k i.
      change (S j + i) with (S (j + i)).
      rewrite exec_S, observe_bind, Ot. cbn [observe _observe].
      rewrite Hk. reflexivity.
    + destruct x. discriminate.
Qed.

(** *** The loop and the two branches *)

Lemma exec_forever_print_pair (s : string) (n : nat) :
  exec W n (ITree.forever (trigger (Print s)))
    = (repeat (OPrint s) (Nat.div2 (S n)), Running)
  /\ exec W (S n) (ITree.forever (trigger (Print s)))
    = (repeat (OPrint s) (Nat.div2 (S (S n))), Running).
Proof.
  induction n as [|n [IH0 IH1]].
  - split; reflexivity.
  - split; [exact IH1|].
    rewrite exec_forever_print, IH0. reflexivity.
Qed.

Lemma exec_forever_print_all (s : string) (n : nat) :
  exec W n (ITree.forever (trigger (Print s)))
    = (repeat (OPrint s) (Nat.div2 (S n)), Running).
Proof. apply exec_forever_print_pair. Qed.

Lemma exec_verdict_truthy (r : value) (n : nat) :
  truthy r = true -> exec W (S n) (verdict r) = ([], Returned (VBool false)).
Proof. intros H. unfold verdict. rewrite H. reflexivity. Qed.

Lemma exec_verdict_falsy (r : value) (n : nat) :
  truthy r = false ->
  exec W n (verdict r) = (repeat (OPrint "Infinite loop") (Nat.div2 (S n)), Running).
Proof. intros H. unfold verdict. rewrite H. apply exec_forever_print_all. Qed.

Lemma verdict_never_raises (r : value) (n : nat) (e : string) :
  result (exec W n (verdict r)) <> Raised e.
Proof.
  destruct (truthy r) eqn:T.
  - destruct n as [|n]; [discriminate|].
    rewrite exec_verdict_truthy by assumption. discriminate.
  - rewrite exec_verdict_falsy by assumption. discriminate.
Qed.

Lemma verdict_returns_inv (r : value) (n : nat) (v : value) :
  result (exec W n (verdict r)) = Returned v -> truthy r = true /\ v = VBool false.
Proof.
  destruct (truthy r) eqn:T.
  - destruct n as [|n]; [discriminate|].
    rewrite exec_verdict_truthy by assumption.
    intros H. injection H as <-. split; reflexivity.
  - rewrite exec_verdict_falsy by assumption. discriminate.
Qed.

(** *** [opposite] once the predictor has returned *)

Lemma exec_opposite_returned (f : value) (m : nat) (tr : list obs) (r : value) :
  exec W m (W f f) = (tr, Returned r) ->
  exists j, j < m /\
    forall i, exec W (S (j + i)) (opposite f)
              = after (OCall f f :: tr) (exec W i (verdict r)).
Proof.
  intros H. destruct (exec_bind_returned _ _ _ _ H) as [j [Hj Hk]].
  exists j. split; [exact Hj|]. intros i.
  rewrite exec_opposite_step, Hk. reflexivity.
Qed.


(** What a run of a sequence can be, by how its first part ends. *)
Lemma exec_bind_cases (n : nat) (t : itree pyE value) (k : value -> itree pyE value) :
  (exists tr, exec W n t = (tr, Running) /\ exec W n (ITree.bind t k) = (tr, Running))
  \/ (exists tr e, exec W n t = (tr, Raised e) /\ exec W n (ITree.bind t k) = (tr, Raised e))
  \/ (exists tr r i, exec W n t = (tr, Returned r) /\ i <= n
                     /\ exec W n (ITree.bind t k) = after tr (exec W i (k r))).
Proof.
  destruct (exec W n t) as [tr [r|e|]] eqn:E.
  - right. right. destruct (exec_bind_returned _ _ _ _ E) as [j [Hj Hk]].
    exists tr, r, (n - j). split; [reflexivity|]. split; [lia|].
    rewrite <- Hk. f_equal. lia.
  - right. left. exists tr, e. split; [reflexivity|].
    apply exec_bind_raised. exact E.
  - left. exists tr. split; [reflexivity|].
    apply exec_bind_running. exact E.
Qed.

(** *** Behaviour of [opposite] by the predictor's answer *)

Lemma opposite_returns (f : value) (m : nat) (tr : list obs) (r : value) :
  exec W m (W f f) = (tr, Returned r) -> truthy r = true ->
  exec W (S m) (opposite f) = (OCall f f :: tr, Returned (VBool false)).
Proof.
  intros H T. destruct (@exec_opposite_returned f m tr r H) as [j [Hj Hk]].
  replace m with (j + S (m - S j)) at 1 by lia.
  rewrite Hk, exec_verdict_truthy by exact T.
  unfold after. simpl. rewrite app_nil_r. reflexivity.
Qed.

Lemma opposite_loops (f : value) (m : nat) (tr : list obs) (r : value) :
  exec W m (W f f) = (tr, Returned r) -> truthy r = false ->
  exists j, j < m /\
    forall i, exec W (S (j + i)) (opposite f)
              = (OCall f f :: tr ++ repeat (OPrint "Infinite loop") (Nat.div2 (S i)),
                 Running).
Proof.
  intros H T. destruct (@exec_opposite_returned f m tr r H) as [j [Hj Hk]].
  exists j. split; [exact Hj|]. intros i.
  rewrite Hk, exec_verdict_falsy by exact T. reflexivity.
Qed.

Lemma opposite_freezes (f : value) (m : nat) (tr : list obs) (r : value) :
  exec W m (W f f) = (tr, Returned r) -> truthy r = false ->
  freezes W (opposite f).
Proof.
  intros H T n. destruct (@opposite_loops f m tr r H T) as [j [_ Hk]].
  apply (@exec_running_le n (S (j + n))); [|lia].
  rewrite Hk. reflexivity.
Qed.

Lemma opposite_returned_inv (f : value) (n : nat) (v : value) :
  result (exec W n (opposite f)) = Returned v ->
  v = VBool false
  /\ exists m r, result (exec W m (W f f)) = Returned r /\ truthy r = true.
Proof.
  destruct n as [|n]; [discriminate|].
  rewrite exec_opposite_step.
  destruct (exec_bind_cases n (W f f) verdict)
    as [[tr [E1 E2]] | [[tr [e [E1 E2]]] | [tr [r [i [E1 [Hi E2]]]]]]];
    rewrite E2; unfold result, seen, after; simpl; try discriminate.
  intros H. apply verdict_returns_inv in H. destruct H as [T ->].
  split; [reflexivity|]. exists n, r. rewrite E1. split; [reflexivity|exact T].
Qed.

Lemma opposite_raised_iff (f : value) (e : string) :
  (exists n, result (exec W n (opposite f)) = Raised e)
  <-> (exists n, result (exec W n (W f f)) = Raised e).
Proof.
  split; intros [n H].
  - destruct n as [|n]; [discriminate|].
    rewrite exec_opposite_step in H.
    destruct (exec_bind_cases n (W f f) verdict)
      as [[tr [E1 E2]] | [[tr [e' [E1 E2]]] | [tr [r [i [E1 [Hi E2]]]]]]];
      rewrite E2 in H; unfold result, seen, after in H; simpl in H.
    + discriminate.
    + exists n. rewrite E1. exact H.
    + exfalso. exact (verdict_never_raises _ _ _ H).
  - exists (S n). rewrite exec_opposite_step.
    destruct (exec W n (W f f)) as [tr st] eqn:E. simpl in H. subst st.
    rewrite (@exec_bind_raised n (W f f) verdict tr e E). reflexivity.
Qed.

End Runner.

Lemma count_prints_repeat (s : string) (n : nat) :
  count_prints (repeat (OPrint s) n) = n.
Proof.
  unfold count_prints. induction n as [|n IH]; simpl; [reflexivity|].
  f_equal. exact IH.
Qed.

Lemma count_calls_repeat (s : string) (n : nat) :
  count_calls (repeat (OPrint s) n) = 0.
Proof.
  unfold count_calls. induction n as [|n IH]; simpl; [reflexivity|exact IH].
Qed.

Lemma div2_succ_double (n : nat) : Nat.div2 (S (2 * n)) = n.
Proof.
  induction n as [|n IH]; [reflexivity|].
  replace (S (2 * S n)) with (S (S (S (2 * n)))) by lia.
  simpl Nat.div2 at 1. f_equal. exact IH.
Qed.

(** Under a total boolean candidate the run of [opposite] is known step by
    step. *)
Lemma exec_opposite_decider (P : value -> value -> bool) (f : value) (n : nat) :
  exec (decider P) (S (S n)) (opposite f)
  = if P f f
    then ([OCall f f], Returned (VBool false))
    else (OCall f f :: repeat (OPrint "Infinite loop") (Nat.div2 (S (S n))), Running).
Proof.
  assert (H : exec (decider P) 1 (decider P f f) = ([], Returned (VBool (P f f))))
    by reflexivity.
  destruct (P f f) eqn:E.
  - rewrite exec_opposite_step.
    rewrite (@exec_bind_ret (decider P) (S n) _ verdict (VBool true))
      by (unfold decider; rewrite E; reflexivity).
    reflexivity.
  - rewrite exec_opposite_step.
    rewrite (@exec_bind_ret (decider P) (S n) _ verdict (VBool false))
      by (unfold decider; rewrite E; reflexivity).
    rewrite exec_verdict_falsy by reflexivity. reflexivity.
Qed.

(** ** The predictor stub *)

(** C5: [will_freeze] is unimplemented.  For every [f] and [x] the call
    does nothing and yields [None], which is not a boolean, whatever the
    annotation [-> bool] announces. *)
Theorem will_freeze_unimplemented (W : predictor) (f x : value) (n : nat) :
  will_freeze f x = Ret VNone
  /\ exec W (S n) (will_freeze f x) = ([], Returned VNone)
  /\ is_bool VNone = false
  /\ forall b, VNone <> VBool b.
Proof.
  split; [reflexivity|]. split; [reflexivity|]. split; [reflexivity|].
  intros b. discriminate.
Qed.

(** C10: the call [will_freeze(f, x)] returns for all arguments, at its
    first step, and its run shows no event at all: it neither calls
    anything (so [f] is never invoked) nor depends on what [f] and [x]
    are. *)
Theorem will_freeze_total_and_inert (W : predictor) (f x : value) :
  halts W (will_freeze f x)
  /\ (forall n, exec W (S n) (will_freeze f x) = ([], Returned VNone))
  /\ (forall n, trace (exec W n (will_freeze f x)) = [])
  /\ (forall g y, will_freeze g y = will_freeze f x).
Proof.
  split; [exists 1, VNone; reflexivity|].
  split; [reflexivity|].
  split; [intros [|n]; reflexivity|].
  reflexivity.
Qed.

(** ** The counter-example function *)

(** C2: for every [f], when the call [will_freeze(f, f)] returns a true
    value, [opposite(f)] returns at the very next step, having done
    nothing of its own after the call; the value returned is [False]. *)
Theorem opposite_returns_when_freeze_predicted
    (W : predictor) (f : value) (m : nat) (tr : list obs) (r : value) :
  exec W m (W f f) = (tr, Returned r) ->
  truthy r = true ->
  exec W (S m) (opposite f) = (OCall f f :: tr, Returned (VBool false))
  /\ halts W (opposite f).
Proof.
  intros H T.
  pose proof (opposite_returns W f m tr r H T) as E.
  split; [exact E|].
  exists (S m), (VBool false). rewrite E. reflexivity.
Qed.

Lemma opposite_returns_when_freeze_predicted_witness :
  exec (always true) 1 (always true (VInt 7) (VInt 7)) = ([], Returned (VBool true))
  /\ truthy (VBool true) = true
  /\ exec (always true) 2 (opposite (VInt 7))
     = ([OCall (VInt 7) (VInt 7)], Returned (VBool false))
  /\ halts (always true) (opposite (VInt 7)).
Proof.
  split; [reflexivity|]. split; [reflexivity|].
  apply (@opposite_returns_when_freeze_predicted
           (always true) (VInt 7) 1 [] (VBool true)); reflexivity.
Defined.

(** C3: for every [f], when the call [will_freeze(f, f)] returns a false
    value, [opposite(f)] never returns: every finite run is still going,
    and the runs print the line any number of times. *)
Theorem opposite_loops_when_return_predicted
    (W : predictor) (f : value) (m : nat) (tr : list obs) (r : value) :
  exec W m (W f f) = (tr, Returned r) ->
  truthy r = false ->
  freezes W (opposite f)
  /\ forall N, exists n,
       exec W n (opposite f)
       = (OCall f f :: tr ++ repeat (OPrint "Infinite loop") N, Running).
Proof.
  intros H T. split; [exact (opposite_freezes W f m tr r H T)|].
  intros N. destruct (opposite_loops W f m tr r H T) as [j [_ Hk]].
  exists (S (j + 2 * N)). rewrite Hk, div2_succ_double. reflexivity.
Qed.

Lemma opposite_loops_when_return_predicted_witness :
  exec (always false) 1 (always false opposite_fn opposite_fn)
  = ([], Returned (VBool false))
  /\ truthy (VBool false) = false
  /\ freezes (always false) (opposite opposite_fn)
  /\ forall N, exists n,
       exec (always false) n (opposite opposite_fn)
       = (OCall opposite_fn opposite_fn :: [] ++ repeat (OPrint "Infinite loop") N,
          Running).
Proof.
  split; [reflexivity|]. split; [reflexivity|].
  apply (@opposite_loops_when_return_predicted
           (always false) opposite_fn 1 [] (VBool false)); reflexivity.
Defined.

(** C4: [opposite(f)] begins with the call [will_freeze(f, f)] and makes
    no other call: its tree is that one call followed by [verdict] of the
    answer, a run logs the call before anything else, and what follows
    the answer contains no call and is the same under every binding of
    the predictor; under a total boolean candidate a run of two steps or
    more shows exactly one call. *)
Theorem opposite_asks_once_first (W : predictor) (f : value) (n : nat) :
  opposite f ≅ Vis (inl1 (WillFreeze f f)) verdict
  /\ exec W (S n) (opposite f)
     = seen (OCall f f) (exec W n (ITree.bind (W f f) verdict))
  /\ (forall r W' i, count_calls (trace (exec W' i (verdict r))) = 0)
  /\ (forall r W' i, exec W' i (verdict r) = exec W i (verdict r))
  /\ (forall P, count_calls (trace (exec (decider P) (S n) (opposite f))) = 1).
Proof.
  split.
  { unfold opposite. rewrite bind_trigger. reflexivity. }
  split; [apply exec_opposite_step|].
  assert (V : forall r W' i,
             exec W' i (verdict r)
             = if truthy r
               then match i with
                    | O => ([], Running)
                    | S _ => ([], Returned (VBool false))
                    end
               else (repeat (OPrint "Infinite loop") (Nat.div2 (S i)), Running)).
  { intros r W' i. destruct (truthy r) eqn:T.
    - destruct i as [|i]; [reflexivity|]. apply exec_verdict_truthy. exact T.
    - apply exec_verdict_falsy. exact T. }
  split.
  { intros r W' i. rewrite V.
    destruct (truthy r); [destruct i; reflexivity|].
    apply count_calls_repeat. }
  split.
  { intros r W' i. rewrite !V. reflexivity. }
  intros P. destruct n as [|n].
  - reflexivity.
  - rewrite exec_opposite_decider. destruct (P f f); [reflexivity|].
    unfold trace, count_calls. cbn [fst filter List.length].
    f_equal. apply count_calls_repeat.
Qed.

(** C9: a run of [opposite(f)] that ends with a value ends with [False],
    whatever is bound to [will_freeze]. *)
Theorem opposite_returns_only_false
    (W : predictor) (f : value) (n : nat) (v : value) :
  result (exec W n (opposite f)) = Returned v -> v = VBool false.
Proof.
  intros H. exact (proj1 (opposite_returned_inv W f n v H)).
Qed.

Lemma opposite_returns_only_false_witness :
  result (exec (always true) 2 (opposite VNone)) = Returned (VBool false)
  /\ VBool false = VBool false.
Proof.
  split; [reflexivity|].
  apply (@opposite_returns_only_false (always true) VNone 2 (VBool false)).
  reflexivity.
Defined.

(** ** The module as shipped *)

(** C8: with the stub bound to [will_freeze], whose call yields the false
    value [None], [opposite(f)] never returns for any [f]: after the call
    every second step prints the line once more. *)
Theorem shipped_opposite_never_returns (f : value) (n : nat) :
  exec will_freeze 1 (will_freeze f f) = ([], Returned VNone)
  /\ truthy VNone = false
  /\ exec will_freeze (S n) (opposite f)
     = (OCall f f :: repeat (OPrint "Infinite loop") (Nat.div2 (S n)), Running)
  /\ freezes will_freeze (opposite f)
  /\ ~ halts will_freeze (opposite f).
Proof.
  assert (H : exec will_freeze 1 (will_freeze f f) = ([], Returned VNone))
    by reflexivity.
  assert (F : freezes will_freeze (opposite f))
    by exact (opposite_freezes will_freeze f 1 [] VNone H eq_refl).
  split; [exact H|]. split; [reflexivity|]. split.
  - rewrite exec_opposite_step.
    rewrite (exec_bind_ret will_freeze n _ verdict VNone) by reflexivity.
    rewrite exec_verdict_falsy by reflexivity. reflexivity.
  - split; [exact F|].
    intros [k [v Hk]]. rewrite (F k) in Hk. discriminate.
Qed.

(** C7: no run raises.  The stub returns under every binding and never
    raises; [opposite(f)] under the stub never raises and never returns;
    under any binding [opposite(f)] raises exactly the errors raised by
    the predictor call, adding none and intercepting none; and under a
    total boolean candidate every call of [opposite] either returns or
    runs forever. *)
Theorem no_runtime_error (f x : value) :
  (forall W n e, result (exec W n (will_freeze f x)) <> Raised e)
  /\ (forall W, halts W (will_freeze f x))
  /\ (forall n e, result (exec will_freeze n (opposite f)) <> Raised e)
  /\ (forall W e, (exists n, result (exec W n (opposite f)) = Raised e)
                  <-> (exists n, result (exec W n (W f f)) = Raised e))
  /\ (forall P, halts (decider P) (opposite f) \/ freezes (decider P) (opposite f)).
Proof.
  split; [intros W [|n] e; discriminate|].
  split; [intros W; exists 1, VNone; reflexivity|].
  split.
  { intros n e H.
    assert (F : freezes will_freeze (opposite f))
      by exact (opposite_freezes will_freeze f 1 [] VNone eq_refl eq_refl).
    rewrite (F n) in H. discriminate. }
  split; [intros W e; apply opposite_raised_iff|].
  intros P. destruct (P f f) eqn:E.
  - left. exists 2, (VBool false). rewrite exec_opposite_decider, E. reflexivity.
  - right. apply (opposite_freezes (decider P) f 1 [] (VBool false)).
    + unfold decider. rewrite E. reflexivity.
    + reflexivity.
Qed.

(** C6, as stated, fails: under the stub the second step of
    [opposite(None)] writes a line to standard output. *)
Lemma opposite_writes_stdout :
  exec will_freeze 2 (opposite VNone)
  = ([OCall VNone VNone; OPrint "Infinite loop"], Running)
  /\ ~ io_free will_freeze (opposite VNone).
Proof.
  split; [reflexivity|].
  intros H. specialize (H 2). discriminate H.
Qed.

(** A call of [opposite] made after an earlier call of [opposite] under
    the constant answer [r]: the second call starts only if the first has
    returned, and then runs as if it were the first. *)
Lemma exec_opposite_twice (r g f : value) (n : nat) :
  exec (answer r) (S n) (opposite g ;; opposite f)
  = if truthy r
    then seen (OCall g g) (exec (answer r) n (opposite f))
    else exec (answer r) (S n) (opposite g).
Proof.
  destruct (truthy r) eqn:T.
  - rewrite (exec_eq_itree (answer r) (S n) _
               (Vis (inl1 (WillFreeze g g))
                    (fun a => ITree.bind (verdict a) (fun _ => opposite f)))).
    + rewrite exec_S. cbn [observe _observe]. f_equal.
      rewrite (exec_bind_ret (answer r) n _ _ r) by reflexivity.
      apply exec_observe. rewrite observe_bind.
      unfold verdict. rewrite T. reflexivity.
    + unfold opposite at 1. rewrite bind_bind, bind_trigger. reflexivity.
  - destruct (exec (answer r) (S n) (opposite g)) as [tr st] eqn:E.
    assert (F : freezes (answer r) (opposite g))
      by exact (opposite_freezes (answer r) g 1 [] r eq_refl T).
    specialize (F (S n)). rewrite E in F. unfold result in F. simpl in F. subst st.
    exact (exec_bind_running (answer r) (S n) (opposite g) (fun _ => opposite f) tr E).
Qed.

(** Under any binding, what a run of [opposite(f)] shows is the call,
    then what the predictor showed, then prints of the fixed line; there
    are such prints only once the predictor has returned a false value. *)
Lemma opposite_trace_shape (W : predictor) (f : value) (n : nat) :
  exists k,
    trace (exec W (S n) (opposite f))
    = (OCall f f :: trace (exec W n (W f f))
         ++ repeat (OPrint "Infinite loop") k)%list
    /\ (k <> 0 ->
        exists v, result (exec W n (W f f)) = Returned v /\ truthy v = false).
Proof.
  rewrite exec_opposite_step.
  destruct (exec_bind_cases W n (W f f) verdict)
    as [[tr [E1 E2]] | [[tr [e [E1 E2]]] | [tr [r [i [E1 [Hi E2]]]]]]];
    rewrite E1, E2; unfold trace, result, seen, after; cbn [fst snd].
  - exists 0. split; [cbn [repeat]; rewrite app_nil_r; reflexivity|].
    intros H. exfalso. apply H. reflexivity.
  - exists 0. split; [cbn [repeat]; rewrite app_nil_r; reflexivity|].
    intros H. exfalso. apply H. reflexivity.
  - destruct (truthy r) eqn:T.
    + exists 0. split.
      * destruct i as [|i]; [reflexivity|].
        rewrite exec_verdict_truthy by exact T. reflexivity.
      * intros H. exfalso. apply H. reflexivity.
    + exists (Nat.div2 (S i)). split.
      * rewrite exec_verdict_falsy by exact T. reflexivity.
      * intros _. exists r. split; [reflexivity|exact T].
Qed.

(** C6, amended: no state is kept and no input is read, [will_freeze]
    performs no output, and [opposite] writes nothing but the fixed line,
    once per turn of its loop.  A run of [will_freeze] shows nothing.
    Under the stub as shipped a run of [opposite(f)] is the call followed
    by one print every second step.  Under any constant answer, boolean or
    not, it is the call alone when the answer is true and the call followed
    by the prints when it is false.  Under any binding at all it is the
    call, what the predictor showed, and prints of the line, which occur
    only after a false answer.  Nothing is carried from one call to the
    next: a call made after [will_freeze] or after a returned [opposite]
    runs as if it were the first. *)
Theorem effects_of_the_module
    (W : predictor) (P : value -> value -> bool) (r f g x : value) (n : nat) :
  (forall W', io_free W' (will_freeze f x))
  /\ (forall W', trace (exec W' n (will_freeze f x)) = [])
  /\ count_prints (trace (exec (decider P) (S n) (opposite f)))
     = (if P f f then 0 else Nat.div2 (S n))
  /\ Forall (fun o => o = OCall f f \/ o = OPrint "Infinite loop")
            (trace (exec (decider P) n (opposite f)))
  /\ exec will_freeze (S n) (opposite f)
     = (OCall f f :: repeat (OPrint "Infinite loop") (Nat.div2 (S n)), Running)
  /\ count_prints (trace (exec will_freeze (S n) (opposite f))) = Nat.div2 (S n)
  /\ trace (exec (answer r) (S n) (opposite f))
     = OCall f f :: (if truthy r
                     then []
                     else repeat (OPrint "Infinite loop") (Nat.div2 (S n)))
  /\ (exists k,
        trace (exec W (S n) (opposite f))
        = (OCall f f :: trace (exec W n (W f f))
             ++ repeat (OPrint "Infinite loop") k)%list
        /\ (k <> 0 ->
            exists v, result (exec W n (W f f)) = Returned v /\ truthy v = false))
  /\ exec W n (will_freeze g x ;; opposite f) = exec W n (opposite f)
  /\ exec (answer r) (S n) (opposite g ;; opposite f)
     = (if truthy r
        then seen (OCall g g) (exec (answer r) n (opposite f))
        else exec (answer r) (S n) (opposite g)).
Proof.
  split; [intros W' [|k]; reflexivity|].
  split; [intros W'; destruct n; reflexivity|].
  assert (R : forall k, Forall (fun o => o = OCall f f \/ o = OPrint "Infinite loop")
                               (repeat (OPrint "Infinite loop") k)).
  { intros k. apply Forall_forall. intros o Ho.
    apply repeat_spec in Ho. right. exact Ho. }
  assert (S1 : exec will_freeze (S n) (opposite f)
               = (OCall f f :: repeat (OPrint "Infinite loop") (Nat.div2 (S n)),
                  Running)).
  { rewrite exec_opposite_step.
    rewrite (exec_bind_ret will_freeze n _ verdict VNone) by reflexivity.
    rewrite exec_verdict_falsy by reflexivity. reflexivity. }
  split.
  { destruct n as [|n].
    + destruct (P f f); reflexivity.
    + rewrite exec_opposite_decider. destruct (P f f); [reflexivity|].
      unfold trace, count_prints. cbn [fst filter].
      apply count_prints_repeat. }
  split.
  { destruct n as [|[|n]].
    + constructor.
    + constructor; [left; reflexivity|constructor].
    + rewrite exec_opposite_decider. destruct (P f f); unfold trace; cbn [fst].
      * constructor; [left; reflexivity|constructor].
      * constructor; [left; reflexivity|apply R]. }
  split; [exact S1|].
  split.
  { rewrite S1. unfold trace, count_prints. cbn [fst filter].
    apply count_prints_repeat. }
  split.
  { rewrite exec_opposite_step.
    rewrite (exec_bind_ret (answer r) n _ verdict r) by reflexivity.
    destruct (truthy r) eqn:T.
    - destruct n as [|n]; [reflexivity|].
      rewrite exec_verdict_truthy by exact T. reflexivity.
    - rewrite exec_verdict_falsy by exact T. reflexivity. }
  split; [apply opposite_trace_shape|].
  split.
  { apply exec_observe. rewrite observe_bind. reflexivity. }
  apply exec_opposite_twice.
Qed.

(** ** The diagonal argument *)

(** C1: no total boolean candidate for [will_freeze] keeps its contract.
    With the candidate bound, [opposite(opposite)] returns exactly when
    the candidate answered that it freezes, and freezes exactly when the
    candidate answered that it returns; so the answer for the pair
    ([opposite], [opposite]) is wrong, and the candidate is not honest. *)
Theorem no_honest_predictor (P : value -> value -> bool) :
  (halts (decider P) (opposite opposite_fn) <-> P opposite_fn opposite_fn = true)
  /\ (freezes (decider P) (opposite opposite_fn) <-> P opposite_fn opposite_fn = false)
  /\ ~ (P opposite_fn opposite_fn = true <-> freezes (decider P) (opposite opposite_fn))
  /\ ~ honest P.
Proof.
  set (o := opposite_fn).
  assert (Hh : P o o = true -> halts (decider P) (opposite o)).
  { intros E. exists 2, (VBool false).
    rewrite exec_opposite_decider, E. reflexivity. }
  assert (Hf : P o o = false -> freezes (decider P) (opposite o)).
  { intros E. apply (opposite_freezes (decider P) o 1 [] (VBool false)).
    - unfold decider. rewrite E. reflexivity.
    - reflexivity. }
  assert (Hx : halts (decider P) (opposite o) -> freezes (decider P) (opposite o) -> False).
  { intros [n [v Hn]] F. rewrite (F n) in Hn. discriminate. }
  assert (D : ~ (P o o = true <-> freezes (decider P) (opposite o))).
  { intros [H1 H2]. destruct (P o o) eqn:E.
    - apply Hx; [apply Hh; reflexivity | apply H1; reflexivity].
    - specialize (H2 (Hf eq_refl)). discriminate. }
  split.
  { split; [|exact Hh]. intros H. destruct (P o o) eqn:E; [reflexivity|].
    exfalso. apply Hx; [exact H | apply Hf; reflexivity]. }
  split.
  { split; [|exact Hf]. intros F. destruct (P o o) eqn:E; [|reflexivity].
    exfalso. apply Hx; [apply Hh; reflexivity | exact F]. }
  split; [exact D|].
  intros H. apply D. apply (H o o). reflexivity.
Qed.

(** ** [opposite] under an arbitrary binding of the predictor *)

(** X1: whatever is bound to [will_freeze], the call [opposite(f)]
    returns exactly when the call [will_freeze(f, f)] returns a true
    value. *)
Theorem opposite_halts_iff (W : predictor) (f : value) :
  halts W (opposite f)
  <-> exists m r, result (exec W m (W f f)) = Returned r /\ truthy r = true.
Proof.
  split.
  - intros [n [v H]]. exact (proj2 (opposite_returned_inv W f n v H)).
  - intros [m [r [H T]]].
    destruct (exec W m (W f f)) as [tr st] eqn:E.
    unfold result in H. simpl in H. subst st.
    exists (S m), (VBool false).
    rewrite (opposite_returns W f m tr r E T). reflexivity.
Qed.

(** X2: as long as the call [will_freeze(f, f)] has not finished,
    [opposite(f)] has not finished either and has shown nothing but that
    call and what the predictor itself showed. *)
Theorem opposite_waits_for_predictor (W : predictor) (f : value) (n : nat) :
  result (exec W n (W f f)) = Running ->
  exec W (S n) (opposite f) = (OCall f f :: trace (exec W n (W f f)), Running).
Proof.
  intros H. destruct (exec W n (W f f)) as [tr st] eqn:E.
  unfold result in H. simpl in H. subst st.
  rewrite exec_opposite_step.
  rewrite (exec_bind_running W n (W f f) verdict tr E). reflexivity.
Qed.

Lemma opposite_waits_for_predictor_witness :
  result (exec (fun f x => trigger (WillFreeze f x)) 3
               (trigger (WillFreeze VNone VNone))) = Running
  /\ exec (fun f x => trigger (WillFreeze f x)) 4 (opposite VNone)
     = (OCall VNone VNone
          :: trace (exec (fun f x => trigger (WillFreeze f x)) 3
                         (trigger (WillFreeze VNone VNone))),
        Running).
Proof.
  split; [reflexivity|].
  apply (opposite_waits_for_predictor (fun f x => trigger (WillFreeze f x)) VNone 3).
  reflexivity.
Defined.

(** X3: the paradox holds for every implementation, boolean or not, pure
    or not: whenever the call [will_freeze(f, f)] returns an answer, that
    answer is wrong about [opposite(f)], which freezes exactly when the
    answer says it will not.  With [f] the function [opposite] itself this
    is the argument written under the two functions. *)
Theorem every_answer_is_wrong
    (W : predictor) (f : value) (m : nat) (tr : list obs) (r : value) :
  exec W m (W f f) = (tr, Returned r) ->
  (truthy r = true -> halts W (opposite f))
  /\ (truthy r = false -> freezes W (opposite f))
  /\ ~ (truthy r = true <-> freezes W (opposite f)).
Proof.
  intros H.
  assert (Hh : truthy r = true -> halts W (opposite f)).
  { intros T. exists (S m), (VBool false).
    rewrite (opposite_returns W f m tr r H T). reflexivity. }
  assert (Hf : truthy r = false -> freezes W (opposite f)).
  { intros T. exact (opposite_freezes W f m tr r H T). }
  split; [exact Hh|]. split; [exact Hf|].
  intros [H1 H2]. destruct (truthy r) eqn:T.
  - destruct (Hh eq_refl) as [n [v Hn]].
    rewrite (H1 eq_refl n) in Hn. discriminate.
  - specialize (H2 (Hf eq_refl)). discriminate.
Qed.

Lemma every_answer_is_wrong_witness :
  exec will_freeze 1 (will_freeze opposite_fn opposite_fn) = ([], Returned VNone)
  /\ (truthy VNone = true -> halts will_freeze (opposite opposite_fn))
  /\ (truthy VNone = false -> freezes will_freeze (opposite opposite_fn))
  /\ ~ (truthy VNone = true <-> freezes will_freeze (opposite opposite_fn)).
Proof.
  split; [reflexivity|].
  apply (every_answer_is_wrong will_freeze opposite_fn 1 [] VNone).
  reflexivity.
Defined.

(** X4: [opposite] looks only at the truth value of the answer.  Two
    answers with the same truth value, boolean or not, give the same
    runs. *)
Theorem opposite_sees_truth_value_only (r1 r2 f : value) (n : nat) :
  truthy r1 = truthy r2 ->
  exec (answer r1) n (opposite f) = exec (answer r2) n (opposite f).
Proof.
  intros T. destruct n as [|n]; [reflexivity|].
  rewrite !exec_opposite_step.
  rewrite (exec_bind_ret (answer r1) n _ verdict r1) by reflexivity.
  rewrite (exec_bind_ret (answer r2) n _ verdict r2) by reflexivity.
  f_equal.
  destruct (truthy r2) eqn:T2.
  - destruct n as [|n]; [reflexivity|].
    rewrite !exec_verdict_truthy by assumption. reflexivity.
  - rewrite !exec_verdict_falsy by assumption. reflexivity.
Qed.

Lemma opposite_sees_truth_value_only_witness :
  truthy (VStr "") = truthy (VInt 0)
  /\ exec (answer (VStr "")) 5 (opposite VNone)
     = exec (answer (VInt 0)) 5 (opposite VNone).
Proof.
  split; [reflexivity|].
  apply (opposite_sees_truth_value_only (VStr "") (VInt 0) VNone 5).
  reflexivity.
Defined.
